(** * Dimmerly: the bridging header [Dimmerly/BridgingHeader.h]

    The repository's only source file is a C header made of four
    preprocessor directives: an inclusion guard ([#ifndef]/[#define]/[#endif])
    around one [#include] of the platform header
    [<IOKit/i2c/IOI2CInterface.h>].  Its whole behaviour is what the C
    preprocessor does with those directives, so the development consists of

    - a model of the directive-level behaviour of the C preprocessor
      (conditional groups, object-like macros, nested inclusion with a
      nesting limit, [#error]), executable as a function;
    - the header itself, line by line, as a value of that model;
    - the properties of the header.

    The platform header is not part of the repository: the file system the
    preprocessor searches is a parameter everywhere. *)

From stdpp Require Import base decidable option list strings gmap fin_maps.

Local Open Scope string_scope.
Local Open Scope list_scope.

(** ** Source of a header: lines after comment removal *)

(** The two spellings of a header name in an [#include] directive. *)
Inductive header : Type :=
  | Angle (name : string)      (* #include <name> *)
  | Quote (name : string).     (* #include "name" *)

#[global] Instance header_eq_dec : EqDecision header.
Proof. solve_decision. Defined.

(** Controlling expressions of [#if] and [#elif], restricted to what can be
    decided from the macro table alone. *)
Inductive cond : Type :=
  | CConst (b : bool)
  | CDefined (x : string)
  | CNot (c : cond)
  | CAnd (c1 c2 : cond)
  | COr (c1 c2 : cond).

(** One logical source line.  Comments are replaced by white space before
    directives are recognised, so a comment-only line is a blank line and a
    comment after a directive disappears. *)
Inductive line : Type :=
  | LBlank
  | LText (toks : list string)
  | LDefine (x : string) (body : list string)
  | LUndef (x : string)
  | LInclude (h : header)
  | LIfdef (x : string)
  | LIfndef (x : string)
  | LIf (c : cond)
  | LElif (c : cond)
  | LElse
  | LEndif
  | LError (msg : string).

#[global] Instance cond_eq_dec : EqDecision cond.
Proof. solve_decision. Defined.

#[global] Instance line_eq_dec : EqDecision line.
Proof. solve_decision. Defined.

(** ** The preprocessor *)

(** The macro table: name to replacement list (object-like macros). *)
Abbreviation macros := (gmap string (list string)).

Inductive warning : Type :=
  | MacroRedefined (x : string).

(** What a run writes: tokens of the preprocessed output, warnings, and,
    when inclusions are left unresolved (see [keep_include]), the
    [#include] directives themselves. *)
Inductive event : Type :=
  | ETok (t : string)
  | EWarn (w : warning)
  | EInclude (h : header).

#[global] Instance warning_eq_dec : EqDecision warning.
Proof. solve_decision. Defined.

#[global] Instance event_eq_dec : EqDecision event.
Proof. solve_decision. Defined.

(** Fatal diagnostics: no output is produced. *)
Inductive pp_error : Type :=
  | HeaderNotFound (h : header)
  | IncludeTooDeep (h : header)
  | ErrorDirective (msg : string)
  | ElifWithoutIf
  | ElifAfterElse
  | ElseWithoutIf
  | ElseAfterElse
  | EndifWithoutIf
  | UnterminatedConditional.

Inductive outcome (A : Type) : Type :=
  | Done (a : A)
  | Fail (e : pp_error).
Arguments Done {A} a.
Arguments Fail {A} e.

Definition and_then {A B : Type} (r : outcome A) (k : A → outcome B) : outcome B :=
  match r with
  | Done a => k a
  | Fail e => Fail e
  end.

Notation "'let!' x ':=' r 'in' k" := (and_then r (λ x, k))
  (at level 10, x pattern, r at level 100, k at level 200).

(** One open conditional group.  [live]: lines of the current branch are
    processed (this already accounts for the enclosing groups).
    [may_take]: the enclosing context is live and no branch of this group
    has been taken yet.  [seen_else]: [#else] has been met. *)
Record frame : Type := Frame {
  live : bool;
  may_take : bool;
  seen_else : bool
}.

Definition active (conds : list frame) : bool :=
  match conds with
  | [] => true
  | f :: _ => live f
  end.

Definition open_group (c : bool) (conds : list frame) : list frame :=
  let a := active conds in
  Frame (a && c) (a && negb c) false :: conds.

Definition is_defined (x : string) (m : macros) : bool :=
  bool_decide (is_Some (m !! x)).

Fixpoint eval_cond (m : macros) (c : cond) : bool :=
  match c with
  | CConst b => b
  | CDefined x => is_defined x m
  | CNot c => negb (eval_cond m c)
  | CAnd c1 c2 => eval_cond m c1 && eval_cond m c2
  | COr c1 c2 => eval_cond m c1 || eval_cond m c2
  end.

(** Macro replacement of one token, for object-like macros: function-like
    macros and the operators [#] and [##] are outside this model, and no
    property below is about the replacement of text.  The replacement list
    is rescanned with the macro being replaced hidden, so a name is never
    replaced inside its own expansion; every nested level hides one more
    defined name, so [size m] levels are enough. *)
Fixpoint expand_token (n : nat) (m : macros) (t : string) : list string :=
  match n with
  | 0 => [t]
  | S n' =>
      match m !! t with
      | None => [t]
      | Some body => flat_map (expand_token n' (delete t m)) body
      end
  end.

Definition expand (m : macros) (toks : list string) : list string :=
  flat_map (expand_token (size m) m) toks.

(** [#define x body]: a definition that differs from the current one is
    diagnosed (a warning) and replaces it. *)
Definition define (x : string) (body : list string) (m : macros)
  : macros * list event :=
  match m !! x with
  | Some old =>
      if decide (old = body) then (m, [])
      else (<[x := body]> m, [EWarn (MacroRedefined x)])
  | None => (<[x := body]> m, [])
  end.

(** How an [#include] met in a live region is resolved. *)
Abbreviation includer := (header → macros → outcome (macros * list event)).

(** One line, given the stack of open conditional groups and the macro
    table.  In a skipped region only the conditional structure is followed. *)
Definition pp_line (inc : includer) (l : line) (conds : list frame) (m : macros)
  : outcome (list frame * macros * list event) :=
  match l with
  | LBlank => Done (conds, m, [])
  | LText toks =>
      if active conds then Done (conds, m, ETok <$> expand m toks)
      else Done (conds, m, [])
  | LDefine x body =>
      if active conds then
        let '(m', out) := define x body m in Done (conds, m', out)
      else Done (conds, m, [])
  | LUndef x =>
      if active conds then Done (conds, delete x m, [])
      else Done (conds, m, [])
  | LInclude h =>
      if active conds then
        let! (m', out) := inc h m in Done (conds, m', out)
      else Done (conds, m, [])
  | LIfdef x => Done (open_group (is_defined x m) conds, m, [])
  | LIfndef x => Done (open_group (negb (is_defined x m)) conds, m, [])
  | LIf c => Done (open_group (eval_cond m c) conds, m, [])
  | LElif c =>
      match conds with
      | [] => Fail ElifWithoutIf
      | f :: outer =>
          if seen_else f then Fail ElifAfterElse
          else
            let b := eval_cond m c in
            Done (Frame (may_take f && b) (may_take f && negb b) false :: outer,
                  m, [])
      end
  | LElse =>
      match conds with
      | [] => Fail ElseWithoutIf
      | f :: outer =>
          if seen_else f then Fail ElseAfterElse
          else Done (Frame (may_take f) false true :: outer, m, [])
      end
  | LEndif =>
      match conds with
      | [] => Fail EndifWithoutIf
      | _ :: outer => Done (outer, m, [])
      end
  | LError msg =>
      if active conds then Fail (ErrorDirective msg)
      else Done (conds, m, [])
  end.

Fixpoint pp_lines (inc : includer) (ls : list line) (conds : list frame)
    (m : macros) : outcome (list frame * macros * list event) :=
  match ls with
  | [] => Done (conds, m, [])
  | l :: rest =>
      let! (conds1, m1, out1) := pp_line inc l conds m in
      let! (conds2, m2, out2) := pp_lines inc rest conds1 m1 in
      Done (conds2, m2, out1 ++ out2)
  end.

(** A whole file: every conditional group it opens must be closed in it. *)
Definition pp_file (inc : includer) (ls : list line) (m : macros)
  : outcome (macros * list event) :=
  let! (conds, m', out) := pp_lines inc ls [] m in
  match conds with
  | [] => Done (m', out)
  | _ :: _ => Fail UnterminatedConditional
  end.

(** The files the preprocessor can find. *)
Abbreviation file_system := (header → option (list line)).

(** [#include] resolved against a file system, with [depth] nesting levels
    left.  The nesting limit is checked before the file is looked for. *)
Fixpoint pp_include (fs : file_system) (depth : nat) (h : header) (m : macros)
  : outcome (macros * list event) :=
  match depth with
  | 0 => Fail (IncludeTooDeep h)
  | S depth' =>
      match fs h with
      | None => Fail (HeaderNotFound h)
      | Some ls => pp_file (pp_include fs depth') ls m
      end
  end.

(** A translation unit: its main file, with [depth] levels of inclusion. *)
Definition pp_tu (fs : file_system) (depth : nat) (tu : list line) (m : macros)
  : outcome (macros * list event) :=
  pp_file (pp_include fs depth) tu m.

(** Inclusions left unresolved: the directive is written to the output and
    the file is not entered. *)
Definition keep_include : includer :=
  λ h m, Done (m, [EInclude h]).

(** ** The header *)

Definition sentinel : string := "BridgingHeader_h".

Definition IOI2CInterface_h : header := Angle "IOKit/i2c/IOI2CInterface.h".

(** [Dimmerly/BridgingHeader.h], its sixteen lines in order. *)
Definition BridgingHeader_h : list line :=
  [ LBlank;                                         (*  1  //                *)
    LBlank;                                         (*  2  //  BridgingHeader.h *)
    LBlank;                                         (*  3  //  Dimmerly      *)
    LBlank;                                         (*  4  //                *)
    LBlank;                                         (*  5  //  Imports ...   *)
    LBlank;                                         (*  6  //  Swift's ...   *)
    LBlank;                                         (*  7  //  so we ...     *)
    LBlank;                                         (*  8  //  and related ... *)
    LBlank;                                         (*  9  //                *)
    LBlank;                                         (* 10                    *)
    LIfndef "BridgingHeader_h";                     (* 11  #ifndef           *)
    LDefine "BridgingHeader_h" [];                  (* 12  #define           *)
    LBlank;                                         (* 13                    *)
    LInclude (Angle "IOKit/i2c/IOI2CInterface.h");  (* 14  #include <...>    *)
    LBlank;                                         (* 15                    *)
    LEndif ].                                       (* 16  #endif            *)

(** The single-inclusion algorithm in the words of the specification: if the
    sentinel identifier is undefined, define it and emit the inner include;
    otherwise emit nothing. *)
Definition single_inclusion_spec (inc : includer) (m : macros)
  : outcome (macros * list event) :=
  if is_defined sentinel m then Done (m, [])
  else inc IOI2CInterface_h (<[sentinel := []]> m).

(** ** Guard locality, observations *)

Definition never_undef (x : string) (ls : list line) : Prop := LUndef x ∉ ls.

#[global] Instance never_undef_dec x ls : Decision (never_undef x ls).
Proof. unfold never_undef. apply _. Defined.

(** The file system [fs] with the file [ls] found under the name [h]. *)
Definition with_file (h : header) (ls : list line) (fs : file_system)
  : file_system :=
  λ h', if decide (h' = h) then Some ls else fs h'.

(** An includer keeps [x] defined. *)
Definition keeps_defined (x : string) (inc : includer) : Prop :=
  ∀ h m m' out, inc h m = Done (m', out) → is_Some (m !! x) → is_Some (m' !! x).

Definition failed {A} (r : outcome A) : Prop :=
  match r with
  | Done _ => False
  | Fail _ => True
  end.

(** The events of a successful run. *)
Definition emitted {A} (r : outcome (A * list event)) : option (list event) :=
  match r with
  | Done (_, out) => Some out
  | Fail _ => None
  end.

(** A symbol can be named after a run when the run succeeded and a token
    spelling it is in the preprocessed output. *)
Definition nameable (sym : string) (r : outcome (macros * list event)) : Prop :=
  ∃ out, emitted r = Some out ∧ ETok sym ∈ out.

(** The two observable states of the guard. *)
Inductive guard_state : Type := Unseen | Seen.

Definition observe (m : macros) : guard_state :=
  if is_defined sentinel m then Seen else Unseen.

(** ** Sample build environments *)

Definition shim_name : header := Quote "BridgingHeader.h".

(** A stand-in for the platform header, used in the examples only: a guard
    of its own and one declaration for each symbol the source comment and
    the specification name.  The text of the real header belongs to the
    platform SDK. *)
Definition sample_IOI2CInterface : list line :=
  [ LIfndef "_IOKIT_IOI2CINTERFACE_H";
    LDefine "_IOKIT_IOI2CINTERFACE_H" [];
    LText ["struct"; "IOI2CRequest"; ";"];
    LText ["IOReturn"; "IOFBGetI2CInterfaceCount"; "("; ")"; ";"];
    LText ["IOReturn"; "IOI2CInterfaceOpen"; "("; ")"; ";"];
    LText ["IOReturn"; "IOI2CSendRequest"; "("; ")"; ";"];
    LText ["IOReturn"; "IOI2CInterfaceClose"; "("; ")"; ";"];
    LEndif ].

(** An SDK that ships the platform header, and one that does not. *)
Definition sample_sdk : file_system :=
  λ h, if decide (h = shim_name) then Some BridgingHeader_h
       else if decide (h = IOI2CInterface_h) then Some sample_IOI2CInterface
       else None.

Definition sdk_without_i2c : file_system :=
  λ h, if decide (h = shim_name) then Some BridgingHeader_h else None.

(** The header installed under a second name as well. *)
Definition second_name : header := Quote "Dimmerly/BridgingHeader.h".

Definition aliased_sdk : file_system :=
  with_file second_name BridgingHeader_h sample_sdk.

(** A platform header that includes the bridging header back. *)
Definition circular_sdk : file_system :=
  with_file IOI2CInterface_h
    [LText ["struct"; "IOI2CRequest"; ";"]; LInclude shim_name] sample_sdk.

(** A platform header without a guard of its own. *)
Definition unguarded_sdk : file_system :=
  with_file IOI2CInterface_h [LText ["IOI2CRequest"]] sample_sdk.

(** A platform header that undefines the sentinel of the bridging header. *)
Definition undefining_sdk : file_system :=
  with_file IOI2CInterface_h [LText ["IOI2CRequest"]; LUndef sentinel] sample_sdk.

(** * Properties *)

(** ** The preprocessor on the header's lines *)

(** Case analysis on membership in a concrete list of lines. *)
Ltac scan_lines H :=
  repeat (apply elem_of_cons in H as [H|H]; [try subst; try done|]);
  try (by apply elem_of_nil in H).

(** The nesting bound of [expand]: more levels than there are macros change
    nothing, so [size m] levels never cut a replacement short. *)
Lemma expand_token_enough (n : nat) (m : macros) (t : string) :
  (size m ≤ n)%nat → expand_token n m t = expand_token (size m) m t.
Proof.
  revert m t. induction n as [|n IH]; intros m t Hn.
  - assert (size m = 0) as -> by (clear -Hn; destruct (size m); [done|inversion Hn]).
    done.
  - cbn [expand_token]. destruct (m !! t) as [body|] eqn:Ht.
    + pose proof (map_size_delete_Some t m (mk_is_Some _ _ Ht)) as Hsz.
      destruct (size m) as [|k] eqn:Hk.
      { apply map_size_empty_inv in Hk. subst m. by rewrite lookup_empty in Ht. }
      cbn [expand_token pred] in *. rewrite Ht.
      apply flat_map_ext. intros t'.
      rewrite IH, Hsz; [done|]. rewrite Hsz. by apply le_S_n.
    + destruct (size m); cbn [expand_token]; by rewrite ?Ht.
Qed.

Lemma is_defined_true x (m : macros) : is_defined x m = true ↔ is_Some (m !! x).
Proof. unfold is_defined. apply bool_decide_eq_true. Qed.

Lemma is_defined_false x (m : macros) : is_defined x m = false ↔ m !! x = None.
Proof.
  unfold is_defined. rewrite bool_decide_eq_false, eq_None_not_Some. done.
Qed.

Lemma BridgingHeader_h_lines (inc : includer) (m : macros) :
  pp_lines inc BridgingHeader_h [] m =
    if is_defined sentinel m then Done ([], m, [])
    else let! (m', out) := inc IOI2CInterface_h (<[sentinel := []]> m) in
         Done ([], m', out).
Proof.
  unfold BridgingHeader_h, IOI2CInterface_h, sentinel.
  cbn [pp_lines pp_line and_then open_group active live negb andb app].
  destruct (is_defined "BridgingHeader_h" m) eqn:Hdef.
  - cbn [pp_lines pp_line and_then open_group active live negb andb app]. done.
  - apply is_defined_false in Hdef.
    cbn [pp_lines pp_line and_then open_group active live negb andb app].
    unfold define. rewrite Hdef.
    cbn [pp_lines pp_line and_then open_group active live negb andb app].
    destruct (inc _ _) as [[m' out]|e]; cbn; [|done].
    by rewrite app_nil_r.
Qed.

Lemma BridgingHeader_h_file (inc : includer) (m : macros) :
  pp_file inc BridgingHeader_h m = single_inclusion_spec inc m.
Proof.
  unfold pp_file, single_inclusion_spec. rewrite BridgingHeader_h_lines.
  destruct (is_defined sentinel m); [done|].
  by destruct (inc _ _) as [[m' out]|e].
Qed.

(** ** A macro that no file undefines stays defined *)

Lemma define_keeps x y body (m : macros) :
  is_Some (m !! x) → is_Some ((define y body m).1 !! x).
Proof.
  intros Hx. unfold define.
  destruct (m !! y) as [old|] eqn:Hy; [destruct (decide (old = body))|];
    cbn [fst]; try done; rewrite lookup_insert; case_decide; eauto.
Qed.

Lemma pp_line_keeps x inc l conds (m : macros) conds' m' out :
  keeps_defined x inc → l ≠ LUndef x →
  pp_line inc l conds m = Done (conds', m', out) →
  is_Some (m !! x) → is_Some (m' !! x).
Proof.
  intros Hinc Hl Hrun Hx.
  destruct l; cbn in Hrun;
    repeat match type of Hrun with
           | context [active ?c] => destruct (active c)
           | context [match ?c with [] => _ | _ :: _ => _ end] => destruct c
           | context [seen_else ?f] => destruct (seen_else f)
           end;
    try (by simplify_eq).
  - pose proof (define_keeps x x0 body m Hx) as Hd.
    destruct (define x0 body m) as [m1 o1]. by simplify_eq.
  - assert (x0 ≠ x) by congruence.
    simplify_eq. by rewrite lookup_delete_ne.
  - destruct (inc h m) as [[m1 o1]|e] eqn:Hi; cbn in Hrun; [|done].
    simplify_eq. eauto.
Qed.

Lemma pp_lines_keeps x inc ls :
  keeps_defined x inc → never_undef x ls →
  ∀ conds (m : macros) conds' m' out,
    pp_lines inc ls conds m = Done (conds', m', out) →
    is_Some (m !! x) → is_Some (m' !! x).
Proof.
  intros Hinc. induction ls as [|l rest IH]; intros Hls conds m conds' m' out Hrun Hx.
  - cbn in Hrun. by simplify_eq.
  - cbn in Hrun. unfold never_undef in *. rewrite not_elem_of_cons in Hls.
    destruct Hls as [Hl Hrest].
    destruct (pp_line inc l conds m) as [[[c1 m1] o1]|e] eqn:H1; cbn in Hrun; [|done].
    destruct (pp_lines inc rest c1 m1) as [[[c2 m2] o2]|e] eqn:H2; cbn in Hrun; [|done].
    simplify_eq.
    eapply IH; [done|exact H2|]. eapply pp_line_keeps; eauto.
Qed.

Lemma pp_file_keeps x inc ls (m : macros) m' out :
  keeps_defined x inc → never_undef x ls →
  pp_file inc ls m = Done (m', out) →
  is_Some (m !! x) → is_Some (m' !! x).
Proof.
  intros Hinc Hls Hrun Hx. unfold pp_file in Hrun.
  destruct (pp_lines inc ls [] m) as [[[c1 m1] o1]|e] eqn:H1; cbn in Hrun; [|done].
  destruct c1; simplify_eq. eapply pp_lines_keeps; eauto.
Qed.

Section GuardLocality.
(** No file that can be found undefines [x]. *)
Variable fs : file_system.
Variable x : string.
Hypothesis fs_never_undef : ∀ h ls, fs h = Some ls → never_undef x ls.

Lemma pp_include_keeps depth : keeps_defined x (pp_include fs depth).
Proof.
  induction depth as [|d IH]; intros h m m' out Hrun Hx; cbn in Hrun; [done|].
  destruct (fs h) as [ls|] eqn:Hh; [|done].
  eapply pp_file_keeps; eauto.
Qed.

Lemma pp_tu_keeps depth tu (m : macros) m' out :
  never_undef x tu →
  pp_tu fs depth tu m = Done (m', out) →
  is_Some (m !! x) → is_Some (m' !! x).
Proof. intros. eapply pp_file_keeps; eauto using pp_include_keeps. Qed.
End GuardLocality.

(** Two includers that agree wherever [x] is defined give the same run of
    any lines that do not undefine [x], from a table where [x] is defined. *)
Lemma pp_lines_agree x (inc1 inc2 : includer) ls :
  keeps_defined x inc1 →
  (∀ h (m : macros), is_Some (m !! x) → inc1 h m = inc2 h m) →
  never_undef x ls →
  ∀ conds (m : macros), is_Some (m !! x) →
    pp_lines inc1 ls conds m = pp_lines inc2 ls conds m.
Proof.
  intros Hk Hag. induction ls as [|l rest IH]; intros Hls conds m Hx; [done|].
  unfold never_undef in *. rewrite not_elem_of_cons in Hls.
  destruct Hls as [Hl Hrest]. cbn [pp_lines].
  assert (pp_line inc1 l conds m = pp_line inc2 l conds m) as Heq.
  { destruct l; cbn; try done. by rewrite Hag. }
  rewrite <- Heq.
  destruct (pp_line inc1 l conds m) as [[[c1 m1] o1]|e] eqn:H1; cbn; [|done].
  rewrite IH; [done|done|]. eapply pp_line_keeps; eauto.
Qed.

Lemma pp_file_agree x (inc1 inc2 : includer) ls (m : macros) :
  keeps_defined x inc1 →
  (∀ h (m : macros), is_Some (m !! x) → inc1 h m = inc2 h m) →
  never_undef x ls → is_Some (m !! x) →
  pp_file inc1 ls m = pp_file inc2 ls m.
Proof. intros. unfold pp_file. by erewrite pp_lines_agree. Qed.

(** ** Inclusion of the header through a file system *)

Lemma observe_Seen (m : macros) : observe m = Seen ↔ is_Some (m !! sentinel).
Proof.
  unfold observe. rewrite <- is_defined_true.
  destruct (is_defined sentinel m); naive_solver.
Qed.

Lemma observe_Unseen (m : macros) : observe m = Unseen ↔ m !! sentinel = None.
Proof.
  unfold observe. rewrite <- is_defined_false.
  destruct (is_defined sentinel m); naive_solver.
Qed.

Lemma BridgingHeader_h_never_undef x : never_undef x BridgingHeader_h.
Proof.
  unfold never_undef, BridgingHeader_h. intros Hin. scan_lines Hin.
Qed.

Lemma BridgingHeader_h_seen (inc : includer) (m : macros) :
  is_Some (m !! sentinel) → pp_file inc BridgingHeader_h m = Done (m, []).
Proof.
  intros Hs. rewrite BridgingHeader_h_file. unfold single_inclusion_spec.
  apply is_defined_true in Hs. by rewrite Hs.
Qed.

Lemma BridgingHeader_h_unseen (inc : includer) (m : macros) :
  m !! sentinel = None →
  pp_file inc BridgingHeader_h m = inc IOI2CInterface_h (<[sentinel := []]> m).
Proof.
  intros Hs. rewrite BridgingHeader_h_file. unfold single_inclusion_spec.
  apply is_defined_false in Hs. by rewrite Hs.
Qed.

Lemma pp_tu_single fs depth h (m : macros) :
  pp_tu fs depth [LInclude h] m = pp_include fs depth h m.
Proof.
  unfold pp_tu, pp_file. cbn.
  by destruct (pp_include fs depth h m) as [[m' out]|e]; cbn; rewrite ?app_nil_r.
Qed.

Lemma pp_tu_cons_include fs depth h tu (m : macros) :
  pp_tu fs depth (LInclude h :: tu) m =
    (let! (m1, out1) := pp_include fs depth h m in
     let! (m2, out2) := pp_tu fs depth tu m1 in
     Done (m2, out1 ++ out2)).
Proof.
  unfold pp_tu, pp_file. cbn.
  destruct (pp_include fs depth h m) as [[m1 out1]|e]; cbn; [|done].
  destruct (pp_lines _ tu [] m1) as [[[c2 m2] out2]|e]; cbn; [|done].
  by destruct c2.
Qed.

Section Shim.
(** The header is found under some name [shim]. *)
Variable fs : file_system.
Variable shim : header.
Hypothesis fs_shim : fs shim = Some BridgingHeader_h.

Lemma include_shim depth (m : macros) :
  pp_include fs (S depth) shim m = single_inclusion_spec (pp_include fs depth) m.
Proof. cbn. rewrite fs_shim. apply BridgingHeader_h_file. Qed.

Lemma include_shim_seen depth (m : macros) :
  is_Some (m !! sentinel) → pp_include fs (S depth) shim m = Done (m, []).
Proof. intros. cbn. rewrite fs_shim. by apply BridgingHeader_h_seen. Qed.

Lemma include_shim_unseen depth (m : macros) :
  m !! sentinel = None →
  pp_include fs (S depth) shim m =
    pp_include fs depth IOI2CInterface_h (<[sentinel := []]> m).
Proof. intros. cbn. rewrite fs_shim. by apply BridgingHeader_h_unseen. Qed.

Lemma include_shim_repeat depth n (m : macros) :
  is_Some (m !! sentinel) →
  pp_tu fs (S depth) (repeat (LInclude shim) n) m = Done (m, []).
Proof.
  intros Hs. induction n as [|n IH]; [done|].
  cbn [repeat]. rewrite pp_tu_cons_include, include_shim_seen by done.
  cbn. by rewrite IH.
Qed.

(** No file undefines the sentinel. *)
Hypothesis fs_local : ∀ h ls, fs h = Some ls → never_undef sentinel ls.

Lemma include_shim_defines depth (m : macros) m' out :
  pp_include fs depth shim m = Done (m', out) → is_Some (m' !! sentinel).
Proof.
  destruct depth as [|d]; [done|]. intros Hrun.
  destruct (m !! sentinel) as [b|] eqn:Hs.
  - rewrite include_shim_seen in Hrun by eauto. simplify_eq. eauto.
  - rewrite include_shim_unseen in Hrun by done.
    eapply pp_include_keeps; [exact fs_local|exact Hrun|].
    rewrite lookup_insert_eq. eauto.
Qed.

(** Once the sentinel is defined the header behaves as an empty file, in
    whatever file and at whatever depth it is included again. *)
Lemma shim_as_empty depth h (m : macros) :
  is_Some (m !! sentinel) →
  pp_include fs depth h m = pp_include (with_file shim [] fs) depth h m.
Proof.
  revert h m. induction depth as [|d IH]; intros h m Hs; [done|].
  cbn [pp_include]. unfold with_file at 1. case_decide as Hh.
  - subst h. rewrite fs_shim. by rewrite BridgingHeader_h_seen.
  - destruct (fs h) as [ls|] eqn:Hls; [|done].
    eapply pp_file_agree; eauto using pp_include_keeps.
Qed.

Lemma pp_tu_shim_as_empty depth tu (m : macros) :
  never_undef sentinel tu → is_Some (m !! sentinel) →
  pp_tu fs depth tu m = pp_tu (with_file shim [] fs) depth tu m.
Proof.
  intros. unfold pp_tu.
  eapply pp_file_agree; eauto using pp_include_keeps, shim_as_empty.
Qed.

End Shim.

Lemma sample_sdk_local h ls :
  sample_sdk h = Some ls → never_undef sentinel ls.
Proof.
  unfold sample_sdk. repeat case_decide; intros Heq; simplify_eq.
  - apply BridgingHeader_h_never_undef.
  - by apply (bool_decide_unpack _).
Qed.

(** ** The build scenarios of the specification, run *)

(** Scenario A: two consecutive inclusions; the platform header's tokens
    appear once. *)
Example scenario_A :
  emitted (pp_tu sample_sdk 200 [LInclude shim_name; LInclude shim_name] ∅)
  = Some (ETok <$> [ "struct"; "IOI2CRequest"; ";";
            "IOReturn"; "IOFBGetI2CInterfaceCount"; "("; ")"; ";";
            "IOReturn"; "IOI2CInterfaceOpen"; "("; ")"; ";";
            "IOReturn"; "IOI2CSendRequest"; "("; ")"; ";";
            "IOReturn"; "IOI2CInterfaceClose"; "("; ")"; ";" ]).
Proof. vm_compute. reflexivity. Qed.

(** Scenario B: the SDK does not ship the platform header. *)
Example scenario_B :
  pp_tu sdk_without_i2c 200 [LInclude shim_name] ∅
  = Fail (HeaderNotFound IOI2CInterface_h).
Proof. vm_compute. reflexivity. Qed.

(** Scenario C: the translation unit uses the descriptor type and the
    interface-count primitive after the inclusion. *)
Example scenario_C :
  emitted (pp_tu sample_sdk 200
             [ LInclude shim_name;
               LText ["IOI2CRequest"; "request"; ";"];
               LText ["IOFBGetI2CInterfaceCount"; "("; "0"; ","; "&"; "n"; ")"; ";"] ]
             ∅)
  = Some (ETok <$> [ "struct"; "IOI2CRequest"; ";";
            "IOReturn"; "IOFBGetI2CInterfaceCount"; "("; ")"; ";";
            "IOReturn"; "IOI2CInterfaceOpen"; "("; ")"; ";";
            "IOReturn"; "IOI2CSendRequest"; "("; ")"; ";";
            "IOReturn"; "IOI2CInterfaceClose"; "("; ")"; ";";
            "IOI2CRequest"; "request"; ";";
            "IOFBGetI2CInterfaceCount"; "("; "0"; ","; "&"; "n"; ")"; ";" ]).
Proof. vm_compute. reflexivity. Qed.

(** The guard protects only as long as nothing undefines the sentinel: a
    translation unit that does so between two inclusions has a platform
    header without a guard of its own processed twice. *)
Example undef_between_inclusions :
  emitted (pp_tu (with_file IOI2CInterface_h [LText ["IOI2CRequest"]] sample_sdk) 200
             [LInclude shim_name; LUndef sentinel; LInclude shim_name] ∅)
  = Some [ETok "IOI2CRequest"; ETok "IOI2CRequest"].
Proof. vm_compute. reflexivity. Qed.

(** ** The properties of the header *)

(** C1, as stated, fails.  A translation unit that undefines the sentinel
    between two inclusions has the platform header processed twice, its
    tokens written twice where the same translation unit with one inclusion
    writes them once; and with the sentinel defined beforehand two
    inclusions write the platform header's tokens not once but never. *)
Lemma idempotent_inclusion_counterexample :
  emitted (pp_tu unguarded_sdk 200
             [LInclude shim_name; LUndef sentinel; LInclude shim_name] ∅)
  ≠ emitted (pp_tu unguarded_sdk 200 [LInclude shim_name; LUndef sentinel] ∅)
  ∧ emitted (pp_tu unguarded_sdk 200
               [LInclude shim_name; LUndef sentinel; LInclude shim_name] ∅)
    = Some [ETok "IOI2CRequest"; ETok "IOI2CRequest"]
  ∧ emitted (pp_tu unguarded_sdk 200 [LInclude shim_name; LInclude shim_name]
               (<[sentinel := []]> ∅))
    = Some []
  ∧ emitted (pp_include unguarded_sdk 200 IOI2CInterface_h (<[sentinel := []]> ∅))
    = Some [ETok "IOI2CRequest"].
Proof.
  split; [|split; [|split]]; vm_compute; [|reflexivity..].
  intros Heq. discriminate Heq.
Qed.

(** C1, amended.  Idempotent inclusion.  In a build where no file undefines
    the sentinel: two consecutive inclusions of the header give the result
    of one, and so do any number of consecutive inclusions; started with the
    sentinel undefined, the result of two inclusions is that of processing
    the platform header once, so its tokens are written once; and in a
    translation unit that includes the header and goes on with any lines
    [tu] that do not undefine the sentinel, every later inclusion, by [tu]
    itself or by a file it includes at any depth, behaves as the inclusion of
    an empty file: no token, no warning, no change of the macro table. *)
Theorem idempotent_inclusion (fs : file_system) (shim : header) (depth : nat)
    (m : macros) :
  fs shim = Some BridgingHeader_h →
  (∀ h ls, fs h = Some ls → never_undef sentinel ls) →
  pp_tu fs depth [LInclude shim; LInclude shim] m
  = pp_tu fs depth [LInclude shim] m
  ∧ (∀ n, pp_tu fs depth (repeat (LInclude shim) (S n)) m
          = pp_tu fs depth [LInclude shim] m)
  ∧ (m !! sentinel = None →
     pp_tu fs (S depth) [LInclude shim; LInclude shim] m
     = pp_include fs depth IOI2CInterface_h (<[sentinel := []]> m))
  ∧ (∀ tu, never_undef sentinel tu →
     pp_tu fs depth (LInclude shim :: tu) m =
       (let! (m1, out1) := pp_include fs depth shim m in
        let! (m2, out2) := pp_tu (with_file shim [] fs) depth tu m1 in
        Done (m2, out1 ++ out2))).
Proof.
  intros Hshim Hlocal.
  assert (∀ n, pp_tu fs depth (repeat (LInclude shim) (S n)) m
               = pp_tu fs depth [LInclude shim] m) as Hmany.
  { intros n. cbn [repeat]. rewrite pp_tu_cons_include, pp_tu_single.
    destruct (pp_include fs depth shim m) as [[m1 out1]|e] eqn:Hrun; cbn; [|done].
    destruct depth as [|d]; [done|].
    rewrite (include_shim_repeat fs shim Hshim)
      by (eapply include_shim_defines; eauto).
    cbn. by rewrite app_nil_r. }
  split; [apply (Hmany 1)|]. split; [exact Hmany|]. split.
  - intros Hs. rewrite pp_tu_cons_include.
    rewrite (include_shim_unseen fs shim Hshim) by done.
    destruct (pp_include fs depth IOI2CInterface_h _) as [[m1 out1]|e] eqn:Hrun;
      cbn [and_then]; [|done].
    rewrite pp_tu_single, (include_shim_seen fs shim Hshim).
    + cbn [and_then]. by rewrite app_nil_r.
    + eapply (pp_include_keeps fs sentinel Hlocal); [exact Hrun|].
      rewrite lookup_insert_eq. eauto.
  - intros tu Htu. rewrite pp_tu_cons_include.
    destruct (pp_include fs depth shim m) as [[m1 out1]|e] eqn:Hrun; cbn; [|done].
    rewrite (pp_tu_shim_as_empty fs shim Hshim Hlocal); [done|done|].
    eapply include_shim_defines; eauto.
Qed.

Lemma idempotent_inclusion_witness :
  pp_tu sample_sdk 200 [LInclude shim_name; LInclude shim_name] ∅
  = pp_tu sample_sdk 200 [LInclude shim_name] ∅.
Proof.
  refine (proj1 (idempotent_inclusion sample_sdk shim_name 200 ∅ _ _)).
  - reflexivity.
  - exact sample_sdk_local.
Defined.

(** C2, as stated, fails.  With the sentinel defined beforehand the first
    inclusion of a translation unit does not process the platform header,
    which is there and would write its declarations; and when the platform
    header undefines the sentinel the second inclusion is not skipped, the
    platform header's tokens being written a second time. *)
Lemma first_processed_rest_skipped_counterexample :
  emitted (pp_tu sample_sdk 200 [LInclude shim_name] (<[sentinel := ["1"]]> ∅))
  = Some []
  ∧ emitted (pp_include sample_sdk 200 IOI2CInterface_h (<[sentinel := ["1"]]> ∅))
    ≠ Some []
  ∧ emitted (pp_tu undefining_sdk 200 [LInclude shim_name] ∅)
    = Some [ETok "IOI2CRequest"]
  ∧ emitted (pp_tu undefining_sdk 200 [LInclude shim_name; LInclude shim_name] ∅)
    = Some [ETok "IOI2CRequest"; ETok "IOI2CRequest"].
Proof.
  split; [|split; [|split]]; vm_compute; [reflexivity| |reflexivity..].
  intros Heq. discriminate Heq.
Qed.

(** C2, amended.  The header is the sentinel-macro algorithm: under every
    way of resolving inclusions, processing its lines is
    [single_inclusion_spec]; an inclusion that finds the sentinel undefined
    defines it and processes the platform header, an inclusion that finds it
    defined emits nothing and changes nothing.  Hence, in a build where no
    file undefines the sentinel, for a translation unit that starts with the
    sentinel undefined, includes the header and goes on with any lines [tu]
    that do not undefine the sentinel: the first inclusion processes the
    platform header, and every later inclusion, by [tu] or by a file it
    includes, is skipped, the header being an empty file to it. *)
Theorem sentinel_algorithm (fs : file_system) (shim : header) (depth : nat)
    (inc : includer) (m : macros) :
  pp_file inc BridgingHeader_h m = single_inclusion_spec inc m
  ∧ (m !! sentinel = None →
     pp_file inc BridgingHeader_h m
     = inc IOI2CInterface_h (<[sentinel := []]> m))
  ∧ (is_Some (m !! sentinel) →
     pp_file inc BridgingHeader_h m = Done (m, []))
  ∧ (fs shim = Some BridgingHeader_h →
     (∀ h ls, fs h = Some ls → never_undef sentinel ls) →
     m !! sentinel = None →
     ∀ tu, never_undef sentinel tu →
       pp_tu fs (S depth) (LInclude shim :: tu) m =
         (let! (m1, out1) :=
            pp_include fs depth IOI2CInterface_h (<[sentinel := []]> m) in
          let! (m2, out2) := pp_tu (with_file shim [] fs) (S depth) tu m1 in
          Done (m2, out1 ++ out2))).
Proof.
  split; [apply BridgingHeader_h_file|].
  split; [apply BridgingHeader_h_unseen|].
  split; [apply BridgingHeader_h_seen|].
  intros Hshim Hlocal Hs tu Htu.
  rewrite pp_tu_cons_include, (include_shim_unseen fs shim Hshim) by done.
  destruct (pp_include fs depth IOI2CInterface_h _) as [[m1 out1]|e] eqn:Hrun;
    cbn [and_then]; [|done].
  rewrite (pp_tu_shim_as_empty fs shim Hshim Hlocal); [done|done|].
  eapply (pp_include_keeps fs sentinel Hlocal); [exact Hrun|].
  rewrite lookup_insert_eq. eauto.
Qed.

Lemma sentinel_algorithm_witness :
  pp_file keep_include BridgingHeader_h ∅
  = keep_include IOI2CInterface_h (<[sentinel := []]> ∅)
  ∧ pp_file keep_include BridgingHeader_h (<[sentinel := []]> ∅)
    = Done (<[sentinel := []]> ∅, [])
  ∧ pp_tu sample_sdk 200 [LInclude shim_name; LInclude shim_name] ∅
    = (let! (m1, out1) :=
         pp_include sample_sdk 199 IOI2CInterface_h (<[sentinel := []]> ∅) in
       let! (m2, out2) :=
         pp_tu (with_file shim_name [] sample_sdk) 200 [LInclude shim_name] m1 in
       Done (m2, out1 ++ out2)).
Proof.
  split; [|split].
  - refine (proj1 (proj2
      (sentinel_algorithm sample_sdk shim_name 199 keep_include ∅)) _).
    reflexivity.
  - refine (proj1 (proj2 (proj2
      (sentinel_algorithm sample_sdk shim_name 199 keep_include
         (<[sentinel := []]> ∅))) ) _).
    by apply (bool_decide_unpack _).
  - refine (proj2 (proj2 (proj2
      (sentinel_algorithm sample_sdk shim_name 199 keep_include ∅)))
      _ _ _ [LInclude shim_name] _).
    + reflexivity.
    + exact sample_sdk_local.
    + reflexivity.
    + by apply (bool_decide_unpack _).
Defined.

(** C3. Symbol availability.  A translation unit that consists of one
    inclusion of the header, started with the sentinel undefined, has exactly
    the result of processing the platform header: every symbol the platform
    header declares (the request descriptor type, the interface-count, open,
    send and close primitives) can be named in the translation unit, with no
    further include. *)
Theorem symbol_availability (fs : file_system) (shim : header) (depth : nat)
    (m m' : macros) (out : list event) :
  fs shim = Some BridgingHeader_h →
  m !! sentinel = None →
  pp_include fs depth IOI2CInterface_h (<[sentinel := []]> m) = Done (m', out) →
  pp_tu fs (S depth) [LInclude shim] m = Done (m', out)
  ∧ ∀ sym, ETok sym ∈ out →
           nameable sym (pp_tu fs (S depth) [LInclude shim] m).
Proof.
  intros Hshim Hs Hplat.
  assert (pp_tu fs (S depth) [LInclude shim] m = Done (m', out)) as Hrun.
  { rewrite pp_tu_single, (include_shim_unseen fs shim Hshim) by done.
    exact Hplat. }
  split; [done|]. intros sym Hsym. exists out. by rewrite Hrun.
Qed.

Lemma symbol_availability_witness :
  Forall (λ sym, nameable sym (pp_tu sample_sdk 200 [LInclude shim_name] ∅))
    [ "IOI2CRequest"; "IOFBGetI2CInterfaceCount"; "IOI2CInterfaceOpen";
      "IOI2CSendRequest"; "IOI2CInterfaceClose" ].
Proof.
  assert (pp_include sample_sdk 199 IOI2CInterface_h (<[sentinel := []]> ∅)
          = Done (<["_IOKIT_IOI2CINTERFACE_H" := []]> (<[sentinel := []]> ∅),
                  ETok <$> [ "struct"; "IOI2CRequest"; ";";
                    "IOReturn"; "IOFBGetI2CInterfaceCount"; "("; ")"; ";";
                    "IOReturn"; "IOI2CInterfaceOpen"; "("; ")"; ";";
                    "IOReturn"; "IOI2CSendRequest"; "("; ")"; ";";
                    "IOReturn"; "IOI2CInterfaceClose"; "("; ")"; ";" ]))
    as Hplat by (vm_compute; reflexivity).
  pose proof (proj2 (symbol_availability sample_sdk shim_name 199 ∅ _ _
                       eq_refl eq_refl Hplat)) as Hsyms.
  repeat (apply Forall_cons; split;
          [apply Hsyms; by apply (bool_decide_unpack _)|]).
  apply Forall_nil_2.
Defined.

(** C4, as stated, fails: with the sentinel already defined the header is
    processed without error although the platform header is unavailable. *)
Lemma failure_iff_unavailable_counterexample :
  ¬ (failed (pp_include sdk_without_i2c 200 shim_name (<[sentinel := []]> ∅))
     ↔ sdk_without_i2c IOI2CInterface_h = None).
Proof.
  intros [_ Hfail]. specialize (Hfail eq_refl).
  vm_compute in Hfail. exact Hfail.
Qed.

(** C4, amended.  With the sentinel undefined, processing the header fails
    exactly when processing the platform header fails, and with that very
    diagnostic: the header adds no error of its own and passes the failure on
    unchanged; a failure carries no output.  When the platform header is
    unavailable the diagnostic is [HeaderNotFound] naming it.  With the
    sentinel defined, processing the header succeeds whether the platform
    header is available or not. *)
Theorem failure_only_from_platform_header (fs : file_system) (shim : header)
    (depth : nat) (m : macros) :
  fs shim = Some BridgingHeader_h →
  (m !! sentinel = None →
     (∀ e, pp_include fs (S depth) shim m = Fail e
           ↔ pp_include fs depth IOI2CInterface_h (<[sentinel := []]> m) = Fail e)
     ∧ (fs IOI2CInterface_h = None →
        pp_include fs (S (S depth)) shim m
        = Fail (HeaderNotFound IOI2CInterface_h)))
  ∧ (is_Some (m !! sentinel) →
     pp_include fs (S depth) shim m = Done (m, [])).
Proof.
  intros Hshim. split.
  - intros Hs. split.
    + intros e. by rewrite (include_shim_unseen fs shim Hshim).
    + intros Hnone. rewrite (include_shim_unseen fs shim Hshim) by done.
      cbn. by rewrite Hnone.
  - apply (include_shim_seen fs shim Hshim).
Qed.

Lemma failure_only_from_platform_header_witness :
  pp_include sdk_without_i2c 200 shim_name ∅
  = Fail (HeaderNotFound IOI2CInterface_h)
  ∧ pp_include sdk_without_i2c 199 shim_name (<[sentinel := []]> ∅)
    = Done (<[sentinel := []]> ∅, []).
Proof.
  split.
  - refine (proj2 (proj1
      (failure_only_from_platform_header sdk_without_i2c shim_name 198 ∅ _) _) _);
      reflexivity.
  - refine (proj2
      (failure_only_from_platform_header sdk_without_i2c shim_name 198
         (<[sentinel := []]> ∅) _) _); [reflexivity|].
    by apply (bool_decide_unpack _).
Defined.

(** C5. The header consults nothing but its sentinel.  For two macro tables
    that agree on whether the sentinel is defined, whatever else they
    contain: with inclusions left unresolved the header writes the same
    events in both, and under every way of resolving inclusions (every file
    system, every nesting limit) it takes the same branch in both, either
    doing nothing or defining the sentinel and including the platform
    header. *)
Theorem no_inputs_consulted (m1 m2 : macros) :
  is_defined sentinel m1 = is_defined sentinel m2 →
  emitted (pp_file keep_include BridgingHeader_h m1)
  = emitted (pp_file keep_include BridgingHeader_h m2)
  ∧ ∃ skip : bool, ∀ inc : includer,
      pp_file inc BridgingHeader_h m1
      = (if skip then Done (m1, [])
         else inc IOI2CInterface_h (<[sentinel := []]> m1))
      ∧ pp_file inc BridgingHeader_h m2
        = (if skip then Done (m2, [])
           else inc IOI2CInterface_h (<[sentinel := []]> m2)).
Proof.
  intros Hagree. split.
  - rewrite !BridgingHeader_h_file. unfold single_inclusion_spec.
    rewrite <- Hagree. by destruct (is_defined sentinel m1).
  - exists (is_defined sentinel m1). intros inc.
    rewrite !BridgingHeader_h_file. unfold single_inclusion_spec.
    by rewrite <- Hagree.
Qed.

Lemma no_inputs_consulted_witness :
  emitted (pp_file keep_include BridgingHeader_h ∅)
  = emitted (pp_file keep_include BridgingHeader_h
               (<["__x86_64__" := ["1"]]> (<["DEBUG" := []]> ∅))).
Proof.
  refine (proj1 (no_inputs_consulted ∅
            (<["__x86_64__" := ["1"]]> (<["DEBUG" := []]> ∅)) _)).
  vm_compute. reflexivity.
Defined.

(** C6, as stated, fails.  A platform header that undefines the sentinel
    makes a successful first inclusion end in [Unseen]; and from [Seen] the
    further inclusion of such a file leads back to [Unseen]. *)
Lemma guard_state_machine_counterexample :
  (∃ m' out, pp_include undefining_sdk 200 shim_name ∅ = Done (m', out)
             ∧ observe m' = Unseen)
  ∧ observe (<[sentinel := []]> ∅) = Seen
  ∧ (∃ m' out,
       pp_tu undefining_sdk 200 [LInclude IOI2CInterface_h] (<[sentinel := []]> ∅)
       = Done (m', out)
       ∧ observe m' = Unseen).
Proof.
  split; [|split].
  - exists ∅, [ETok "IOI2CRequest"]. split; vm_compute; reflexivity.
  - vm_compute. reflexivity.
  - exists ∅, [ETok "IOI2CRequest"]. split; vm_compute; reflexivity.
Qed.

(** C6, amended.  The guard as a state machine.  A macro table is in one of
    two states, [Unseen] (sentinel undefined) or [Seen]; in a build where
    nothing undefines the sentinel: from [Unseen] an inclusion of the header
    succeeds exactly when the platform header is processed, and then ends in
    [Seen]; every successful inclusion ends in [Seen]; from [Seen] any
    number of further inclusions succeed, write nothing and leave the table
    as it is; and no translation unit that does not itself undefine the
    sentinel leads from [Seen] back to [Unseen]. *)
Theorem guard_state_machine (fs : file_system) (shim : header) (depth : nat) :
  fs shim = Some BridgingHeader_h →
  (∀ h ls, fs h = Some ls → never_undef sentinel ls) →
  (∀ m, observe m = Unseen ↔ m !! sentinel = None)
  ∧ (∀ m, observe m = Seen ↔ is_Some (m !! sentinel))
  ∧ (∀ m m' out, observe m = Unseen →
       pp_include fs depth IOI2CInterface_h (<[sentinel := []]> m) = Done (m', out) →
       pp_include fs (S depth) shim m = Done (m', out) ∧ observe m' = Seen)
  ∧ (∀ m m' out,
       pp_include fs depth shim m = Done (m', out) → observe m' = Seen)
  ∧ (∀ m n, observe m = Seen →
       pp_tu fs (S depth) (repeat (LInclude shim) n) m = Done (m, []))
  ∧ (∀ tu m m' out, never_undef sentinel tu → observe m = Seen →
       pp_tu fs depth tu m = Done (m', out) → observe m' = Seen).
Proof.
  intros Hshim Hlocal.
  split; [apply observe_Unseen|]. split; [apply observe_Seen|].
  split; [|split; [|split]].
  - intros m m' out Hu Hplat. apply observe_Unseen in Hu.
    assert (pp_include fs (S depth) shim m = Done (m', out)) as Hrun
      by (by rewrite (include_shim_unseen fs shim Hshim)).
    split; [done|]. apply observe_Seen.
    by eapply (include_shim_defines fs shim Hshim Hlocal (S depth)).
  - intros m m' out Hrun. apply observe_Seen.
    by eapply (include_shim_defines fs shim Hshim Hlocal).
  - intros m n Hs. apply observe_Seen in Hs.
    by apply (include_shim_repeat fs shim Hshim).
  - intros tu m m' out Htu Hs Hrun. apply observe_Seen in Hs. apply observe_Seen.
    eapply (pp_tu_keeps fs sentinel Hlocal); eauto.
Qed.

Lemma guard_state_machine_witness :
  observe ∅ = Unseen
  ∧ (∃ m' out, pp_include sample_sdk 200 shim_name ∅ = Done (m', out)
               ∧ observe m' = Seen)
  ∧ pp_tu sample_sdk 200 (repeat (LInclude shim_name) 5) (<[sentinel := []]> ∅)
    = Done (<[sentinel := []]> ∅, []).
Proof.
  pose proof (guard_state_machine sample_sdk shim_name 199 eq_refl sample_sdk_local)
    as (Hu & _ & Hfirst & _ & Hrep & _).
  split; [by apply Hu|]. split.
  - eexists _, _. apply Hfirst; [by apply Hu|]. vm_compute. reflexivity.
  - apply Hrep. reflexivity.
Defined.

(** C7. The header adds nothing of its own.  It has no text line; with
    inclusions left unresolved the only event it ever writes is the
    [#include] of the platform header, never a token or a warning, and the
    only macro it touches is its sentinel; and under every way of resolving
    inclusions, whatever a successful run writes is what processing the
    platform header wrote. *)
Theorem no_added_definitions (inc : includer) (m : macros) :
  (∀ toks, LText toks ∉ BridgingHeader_h)
  ∧ (∃ m' out,
       pp_file keep_include BridgingHeader_h m = Done (m', out)
       ∧ (∀ ev, ev ∈ out → ev = EInclude IOI2CInterface_h)
       ∧ (∀ x, x ≠ sentinel → m' !! x = m !! x))
  ∧ (∀ m' out, pp_file inc BridgingHeader_h m = Done (m', out) →
       (out = [] ∧ m' = m)
       ∨ inc IOI2CInterface_h (<[sentinel := []]> m) = Done (m', out)).
Proof.
  split; [|split].
  - intros toks Hin. unfold BridgingHeader_h in Hin. scan_lines Hin.
  - rewrite BridgingHeader_h_file. unfold single_inclusion_spec, keep_include.
    destruct (is_defined sentinel m).
    + exists m, []. split; [done|]. split; [|done].
      intros ev Hin. by apply elem_of_nil in Hin.
    + eexists _, _. split; [done|]. split.
      * intros ev Hin. by apply list_elem_of_singleton in Hin.
      * intros x Hx. by rewrite lookup_insert_ne.
  - intros m' out. rewrite BridgingHeader_h_file. unfold single_inclusion_spec.
    destruct (is_defined sentinel m); intros Hrun; [left|right]; by simplify_eq.
Qed.

Lemma no_added_definitions_witness :
  ∃ m' out,
    pp_file keep_include BridgingHeader_h ∅ = Done (m', out)
    ∧ (∀ ev, ev ∈ out → ev = EInclude IOI2CInterface_h)
    ∧ (∀ x, x ≠ sentinel → m' !! x = (∅ : macros) !! x).
Proof.
  exact (proj1 (proj2 (no_added_definitions keep_include ∅))).
Defined.

(** C9. With the sentinel already defined before the header is included,
    including it has no effect: however inclusions are resolved, even when
    every inclusion would fail, the run succeeds, writes nothing and leaves
    the macro table as it was, so the platform header is never processed;
    the same holds for a translation unit that includes the header any
    number of times, whether or not the platform header can be found. *)
Theorem predefined_sentinel_disables_shim (fs : file_system) (shim : header)
    (depth n : nat) (inc : includer) (m : macros) :
  fs shim = Some BridgingHeader_h →
  is_Some (m !! sentinel) →
  pp_file inc BridgingHeader_h m = Done (m, [])
  ∧ pp_file (λ h _, Fail (HeaderNotFound h)) BridgingHeader_h m = Done (m, [])
  ∧ pp_tu fs (S depth) (repeat (LInclude shim) n) m = Done (m, []).
Proof.
  intros Hshim Hs. split; [|split].
  - by apply BridgingHeader_h_seen.
  - by apply BridgingHeader_h_seen.
  - by apply (include_shim_repeat fs shim Hshim).
Qed.

Lemma predefined_sentinel_disables_shim_witness :
  pp_tu sample_sdk 200 [LInclude shim_name] (<[sentinel := ["1"]]> ∅)
  = Done (<[sentinel := ["1"]]> ∅, []).
Proof.
  refine (proj2 (proj2
    (predefined_sentinel_disables_shim sample_sdk shim_name 199 1 keep_include
       (<[sentinel := ["1"]]> ∅) _ _))).
  - reflexivity.
  - by apply (bool_decide_unpack _).
Defined.

(** C10. No architecture or platform conditional.  The only conditional
    directives of the header are the [#ifndef] of its sentinel and the
    matching [#endif]; and with the sentinel undefined the platform header
    is included whether any other macro [arch] (such as [__x86_64__]) is
    defined, with whatever value, or not. *)
Theorem no_platform_conditional (inc : includer) (m : macros)
    (arch : string) (value : list string) :
  arch ≠ sentinel →
  m !! sentinel = None →
  (∀ l, l ∈ BridgingHeader_h →
     match l with
     | LIfndef x => x = sentinel
     | LIfdef _ | LIf _ | LElif _ | LElse => False
     | _ => True
     end)
  ∧ pp_file inc BridgingHeader_h (<[arch := value]> m)
    = inc IOI2CInterface_h (<[sentinel := []]> (<[arch := value]> m))
  ∧ pp_file inc BridgingHeader_h (delete arch m)
    = inc IOI2CInterface_h (<[sentinel := []]> (delete arch m)).
Proof.
  intros Harch Hs. split; [|split].
  - intros l Hin. unfold BridgingHeader_h in Hin. scan_lines Hin.
  - apply BridgingHeader_h_unseen. by rewrite lookup_insert_ne.
  - apply BridgingHeader_h_unseen. by rewrite lookup_delete_ne.
Qed.

Lemma no_platform_conditional_witness :
  pp_file keep_include BridgingHeader_h (<["__x86_64__" := ["1"]]> ∅)
  = keep_include IOI2CInterface_h
      (<[sentinel := []]> (<["__x86_64__" := ["1"]]> ∅))
  ∧ pp_file keep_include BridgingHeader_h (delete "__x86_64__" ∅)
    = keep_include IOI2CInterface_h (<[sentinel := []]> (delete "__x86_64__" ∅)).
Proof.
  refine (proj2 (no_platform_conditional keep_include ∅ "__x86_64__" ["1"] _ _)).
  - by apply (bool_decide_unpack _).
  - reflexivity.
Defined.

(** ** Further properties of the header's lines *)

Lemma BridgingHeader_h_inline (inc : includer) conds (m : macros) :
  pp_lines inc BridgingHeader_h conds m =
    if active conds && negb (is_defined sentinel m)
    then let! (m', out) := inc IOI2CInterface_h (<[sentinel := []]> m) in
         Done (conds, m', out)
    else Done (conds, m, []).
Proof.
  unfold BridgingHeader_h, IOI2CInterface_h, sentinel.
  cbn [pp_lines pp_line and_then app]. unfold open_group.
  destruct (active conds) eqn:Hact;
    destruct (is_defined "BridgingHeader_h" m) eqn:Hdef;
    cbn [pp_lines pp_line and_then active live negb andb app]; try done.
  apply is_defined_false in Hdef. unfold define. rewrite Hdef.
  cbn [pp_lines pp_line and_then active live negb andb app].
  destruct (inc _ _) as [[m' out]|e]; cbn [and_then app]; [|done].
  by rewrite app_nil_r.
Qed.

(** X1. The conditional group of the header is balanced.  Processed in any
    conditional context, as when its text stands inside another file, the
    header hands back the stack of open groups it was given; it raises no
    diagnostic of its own, every failure being that of the inclusion of the
    platform header; and in a skipped region it does nothing at all, whether
    its sentinel is defined or not. *)
Theorem header_conditionals_balanced (inc : includer) (conds : list frame)
    (m : macros) :
  (∀ conds' m' out,
     pp_lines inc BridgingHeader_h conds m = Done (conds', m', out) →
     conds' = conds)
  ∧ (∀ e, pp_lines inc BridgingHeader_h conds m = Fail e →
          inc IOI2CInterface_h (<[sentinel := []]> m) = Fail e)
  ∧ (active conds = false →
     pp_lines inc BridgingHeader_h conds m = Done (conds, m, [])).
Proof.
  rewrite BridgingHeader_h_inline.
  destruct (active conds); destruct (is_defined sentinel m);
    cbn [andb negb]; repeat split; intros; simplify_eq; try done;
    destruct (inc _ _) as [[m1 out1]|e1]; cbn [and_then] in *; by simplify_eq.
Qed.

Lemma header_conditionals_balanced_witness :
  pp_lines (pp_include sample_sdk 199) BridgingHeader_h
    [Frame false true false] ∅
  = Done ([Frame false true false], ∅, []).
Proof.
  refine (proj2 (proj2 (header_conditionals_balanced (pp_include sample_sdk 199)
                          [Frame false true false] ∅)) _).
  reflexivity.
Defined.

(** X2. Inclusion back into the header is cut.  The sentinel is defined
    before the platform header is entered, so while the platform header and
    every file it includes are processed the bridging header is an empty
    file: a platform header that includes the bridging header back, directly
    or through other files, is processed once and the inclusion does not
    recur. *)
Theorem reentrant_inclusion_cut (fs : file_system) (shim : header)
    (depth : nat) (m : macros) :
  fs shim = Some BridgingHeader_h →
  (∀ h ls, fs h = Some ls → never_undef sentinel ls) →
  m !! sentinel = None →
  pp_include fs (S depth) shim m
  = pp_include (with_file shim [] fs) depth IOI2CInterface_h
      (<[sentinel := []]> m).
Proof.
  intros Hshim Hlocal Hs.
  rewrite (include_shim_unseen fs shim Hshim) by done.
  apply (shim_as_empty fs shim Hshim Hlocal).
  rewrite lookup_insert_eq. eauto.
Qed.

Lemma circular_sdk_local h ls :
  circular_sdk h = Some ls → never_undef sentinel ls.
Proof.
  unfold circular_sdk, with_file. case_decide.
  - intros Heq. simplify_eq. by apply (bool_decide_unpack _).
  - apply sample_sdk_local.
Qed.

Lemma reentrant_inclusion_cut_witness :
  pp_include circular_sdk 200 shim_name ∅
  = Done (<[sentinel := []]> ∅, ETok <$> ["struct"; "IOI2CRequest"; ";"]).
Proof.
  rewrite (reentrant_inclusion_cut circular_sdk shim_name 199 ∅).
  - vm_compute. reflexivity.
  - reflexivity.
  - exact circular_sdk_local.
  - reflexivity.
Defined.

(** X3. The guard holds across names.  When the header can be found under
    two names, an inclusion under one name followed by an inclusion under
    the other gives the result of the first alone: the guard is the macro,
    not the identity of the file. *)
Theorem guard_holds_across_names (fs : file_system) (shim1 shim2 : header)
    (depth : nat) (m : macros) :
  fs shim1 = Some BridgingHeader_h →
  fs shim2 = Some BridgingHeader_h →
  (∀ h ls, fs h = Some ls → never_undef sentinel ls) →
  pp_tu fs depth [LInclude shim1; LInclude shim2] m
  = pp_tu fs depth [LInclude shim1] m.
Proof.
  intros Hshim1 Hshim2 Hlocal.
  rewrite pp_tu_cons_include, !pp_tu_single.
  destruct (pp_include fs depth shim1 m) as [[m1 out1]|e] eqn:Hrun;
    cbn [and_then]; [|done].
  destruct depth as [|d]; [done|].
  rewrite pp_tu_single, (include_shim_seen fs shim2 Hshim2).
  - cbn [and_then]. by rewrite app_nil_r.
  - by eapply (include_shim_defines fs shim1 Hshim1 Hlocal).
Qed.

Lemma aliased_sdk_local h ls :
  aliased_sdk h = Some ls → never_undef sentinel ls.
Proof.
  unfold aliased_sdk, with_file. case_decide.
  - intros Heq. simplify_eq. apply BridgingHeader_h_never_undef.
  - apply sample_sdk_local.
Qed.

Lemma guard_holds_across_names_witness :
  pp_tu aliased_sdk 200 [LInclude shim_name; LInclude second_name] ∅
  = pp_tu aliased_sdk 200 [LInclude shim_name] ∅.
Proof.
  apply (guard_holds_across_names aliased_sdk shim_name second_name 200 ∅).
  - reflexivity.
  - reflexivity.
  - exact aliased_sdk_local.
Defined.
